(** * CookieDialog: consent storage, geolocation service and startup logic

    A shallow embedding of [src/storage.ts] ([ConsentStorage]),
    [src/geolocation.ts] ([GeolocationService]) and of the [CookieDialog]
    class that follows it in the same file ([init], [show]).

    The browser is an explicit world threaded through a small state monad:
    - [localStorage] is reduced to the one key [STORAGE_KEY] the code uses;
      its content is either the JSON text of a [ConsentState] written by
      [JSON.stringify] (which [JSON.parse] gives back unchanged) or bytes that
      [JSON.parse] rejects;
    - [Date.now()] reads the world clock [now]; synchronous code runs at one
      instant, time advances between calls of the program's entry points;
    - [setItem] throws when the world says so (quota exceeded, storage
      disabled), and so may [removeItem]; every such throw is caught by the
      code, so it shows up only as the flag [setItem]/[removeItem] return;
    - [fetch] answers with the world's [net] outcome;
    - callbacks, [fetch] calls, writes and the rendering of the dialog are
      recorded, in order, in the world's [log]. *)

From Stdlib Require Import ZArith String List Bool.
From stdpp Require Import base gmap strings list.

Open Scope Z_scope.


(** ** JavaScript values read from a geolocation response *)

Inductive jsval :=
| JUndef
| JNull
| JBool (b : bool)
| JNum (z : Z)
| JStr (s : string)
| JObj.

(** JavaScript truthiness. *)
Definition truthy (v : jsval) : bool :=
  match v with
  | JUndef | JNull => false
  | JBool b => b
  | JNum z => negb (Z.eqb z 0)
  | JStr s => negb (String.eqb s "")
  | JObj => true
  end.

(** [a || b] *)
Definition js_or (a b : jsval) : jsval := if truthy a then a else b.

(** ** types.ts *)

Record CookieCategory := {
  cat_id : string;
  cat_name : string;
  cat_description : string;
  cat_required : bool
}.

Inductive Reason := user_accept | user_reject | location_not_required.

Record LocationData := {
  ld_country : jsval;
  ld_region : jsval;
  ld_inEU : jsval;
  ld_detectionMethod : string
}.

Record ConsentState := {
  timestamp : Z;
  categories : gmap string bool;
  version : string;
  reason : Reason;
  locationData : option LocationData
}.

Record GeolocationResponse := {
  inEU : jsval;
  country : jsval;
  region : jsval
}.

(** ** The browser world *)

(** Content of [localStorage] under [STORAGE_KEY]. *)
Inductive Stored :=
| SRecord (c : ConsentState)   (* [JSON.stringify] of a consent state *)
| SMalformed (s : string).     (* bytes on which [JSON.parse] throws *)

(** Fields of the parsed body of a geolocation response. *)
Record GeoData := {
  d_country_code : jsval;
  d_country_name : jsval;
  d_region : jsval;
  d_inEU : jsval;
  d_in_eu : jsval;
  d_country : jsval
}.

(** [await response.json()]: throws, gives [null], or gives an object
    (a primitive body reads as an object whose fields are all undefined). *)
Inductive Body :=
| BodyUnparsable
| BodyNull
| BodyObject (d : GeoData).

Inductive FetchOutcome :=
| FetchThrows                              (* network error *)
| FetchResponse (ok : bool) (body : Body). (* [response.ok] and body *)

Inductive Event :=
| EvSet (c : ConsentState) (stored : bool)  (* [localStorage.setItem] *)
| EvRemove (removed : bool)                 (* [localStorage.removeItem] *)
| EvFetch (url : string)                    (* [fetch(url)] *)
| EvOnAccept (c : ConsentState)
| EvOnReject
| EvOnChange (c : ConsentState)
| EvOnLocationNotRequired (country region inEU : jsval)
| EvShow.                                   (* the dialog is displayed *)

Record World := {
  ls : option Stored;
  now : Z;
  set_throws : bool;
  remove_throws : bool;
  net : FetchOutcome;
  log : list Event
}.

Definition set_ls (w : World) (s : option Stored) : World :=
  {| ls := s; now := now w; set_throws := set_throws w;
     remove_throws := remove_throws w; net := net w; log := log w |}.

Definition set_now (w : World) (n : Z) : World :=
  {| ls := ls w; now := n; set_throws := set_throws w;
     remove_throws := remove_throws w; net := net w; log := log w |}.

Definition add_log (w : World) (e : Event) : World :=
  {| ls := ls w; now := now w; set_throws := set_throws w;
     remove_throws := remove_throws w; net := net w; log := log w ++ [e] |}.

(** ** The state monad *)

Definition M (A : Type) : Type := World -> A * World.

Definition ret {A} (a : A) : M A := fun w => (a, w).

Definition bind {A B} (m : M A) (k : A -> M B) : M B :=
  fun w => let '(a, w') := m w in k a w'.

Notation "'perform' x := m 'in' k" := (bind m (fun x => k))
  (at level 200, x name, m at level 100, k at level 200).

Definition skip : M unit := ret tt.

Definition emit (e : Event) : M unit := fun w => (tt, add_log w e).

Definition date_now : M Z := fun w => (now w, w).

Definition getItem : M (option Stored) := fun w => (ls w, w).

(** [localStorage.setItem(STORAGE_KEY, JSON.stringify(c))]; the result is
    [false] when it threw. *)
Definition setItem (c : ConsentState) : M bool :=
  fun w =>
    if set_throws w then (false, add_log w (EvSet c false))
    else (true, add_log (set_ls w (Some (SRecord c))) (EvSet c true)).

(** [localStorage.removeItem(STORAGE_KEY)]; [false] when it threw. *)
Definition removeItem : M bool :=
  fun w =>
    if remove_throws w then (false, add_log w (EvRemove false))
    else (true, add_log (set_ls w None) (EvRemove true)).

(** [await fetch(url)] *)
Definition fetch (url : string) : M FetchOutcome :=
  fun w => (net w, add_log w (EvFetch url)).

(** ** storage.ts: ConsentStorage *)

Definition STORAGE_VERSION : string := "1.0.0".

(** [obj[k] = v] with a boolean [v], on an object whose prototype is
    [Object.prototype] (a literal [{}] or a [JSON.parse] result). The key
    ["__proto__"] reaches the inherited [__proto__] setter, which ignores a
    value that is not an object, unless the object has an own
    ["__proto__"] property (which [JSON.parse] creates when the text has
    one). Every other key becomes an own property. *)
Definition js_assign (m : gmap string bool) (k : string) (v : bool) : gmap string bool :=
  if String.eqb k "__proto__" then
    match m !! k with
    | Some _ => <[k := v]> m
    | None => m
    end
  else <[k := v]> m.

(** [clearConsent]: a throwing [removeItem] is caught and logged. *)
Definition clearConsent : M unit :=
  perform _ := removeItem in skip.

(** [getConsent]; [expiryDays] is the field set by the constructor. A
    malformed entry makes [JSON.parse] throw, caught by the [catch] that
    returns [null]; an empty string is falsy and returns [null] earlier,
    with the same result. *)
Definition getConsent (expiryDays : Z) : M (option ConsentState) :=
  perform stored := getItem in
  match stored with
  | None => ret None
  | Some (SMalformed _) => ret None
  | Some (SRecord consent) =>
      let expiryTime := timestamp consent + expiryDays * 24 * 60 * 60 * 1000 in
      perform n := date_now in
      if Z.ltb expiryTime n then
        perform _ := clearConsent in ret None
      else if negb (String.eqb (version consent) STORAGE_VERSION) then
        perform _ := clearConsent in ret None
      else ret (Some consent)
  end.

(** [saveConsent]: a throwing [setItem] is caught and logged. *)
Definition saveConsent (cats : gmap string bool) (r : Reason)
    (loc : option LocationData) : M ConsentState :=
  perform n := date_now in
  let consent := {| timestamp := n; categories := cats;
                    version := STORAGE_VERSION; reason := r;
                    locationData := loc |} in
  perform _ := setItem consent in
  ret consent.

Definition hasConsent (expiryDays : Z) : M bool :=
  perform c := getConsent expiryDays in ret (bool_decide (c <> None)).

Definition getCategoryConsent (expiryDays : Z) (categoryId : string) : M bool :=
  perform c := getConsent expiryDays in
  match c with
  | None => ret false
  | Some consent => ret (bool_decide (categories consent !! categoryId = Some true))
  end.

(** [updateCategoryConsent]: the [catch] returns [null]. *)
Definition updateCategoryConsent (expiryDays : Z) (categoryId : string)
    (value : bool) : M (option ConsentState) :=
  perform c := getConsent expiryDays in
  match c with
  | None => ret None
  | Some consent =>
      perform n := date_now in
      let consent' := {| timestamp := n;
                         categories := js_assign (categories consent) categoryId value;
                         version := version consent; reason := reason consent;
                         locationData := locationData consent |} in
      perform ok := setItem consent' in
      if ok then ret (Some consent') else ret None
  end.

(** ** geolocation.ts: GeolocationService *)

Record GeolocationService := {
  endpoint : string;
  cache : option GeolocationResponse;
  cacheTimestamp : Z
}.

Definition CACHE_DURATION : Z := 3600000.

Definition DEFAULT_ENDPOINT : string := "https://ipapi.co/json/".

(** [constructor(customEndpoint?)]: [customEndpoint || default]. *)
Definition new_GeolocationService (customEndpoint : option string)
    : GeolocationService :=
  {| endpoint := match customEndpoint with
                 | Some e => if String.eqb e "" then DEFAULT_ENDPOINT else e
                 | None => DEFAULT_ENDPOINT
                 end;
     cache := None; cacheTimestamp := 0 |}.

(** [String.prototype.includes]: [sub] occurs in [s] at some position. *)
Fixpoint includes (s sub : string) : bool :=
  String.prefix sub s ||
  match s with
  | EmptyString => false
  | String _ s' => includes s' sub
  end.

Definition euCountries : list string :=
  ["AT"; "BE"; "BG"; "HR"; "CY"; "CZ"; "DK"; "EE"; "FI"; "FR";
   "DE"; "GR"; "HU"; "IE"; "IT"; "LV"; "LT"; "LU"; "MT"; "NL";
   "PL"; "PT"; "RO"; "SK"; "SI"; "ES"; "SE"; "GB"; "IS"; "LI"; "NO"].

(** [euCountries.includes(v)]: strict equality, so only strings match. *)
Definition euCountries_includes (v : jsval) : bool :=
  match v with
  | JStr s => existsb (String.eqb s) euCountries
  | _ => false
  end.

(** The [ipapi.co] branch of the response adapter. *)
Definition ipapi_result (data : GeoData) : GeolocationResponse :=
  {| inEU := JBool (euCountries_includes (d_country_code data));
     country := d_country_name data;
     region := d_region data |}.

(** The custom-endpoint branch: [data.inEU || data.in_eu || false]. *)
Definition custom_result (data : GeoData) : GeolocationResponse :=
  {| inEU := js_or (js_or (d_inEU data) (d_in_eu data)) (JBool false);
     country := d_country data;
     region := d_region data |}.

(** The body of the [try] block after [fetch]: [None] when it throws
    ([!response.ok], [response.json()] failing, a field read on [null]). *)
Definition parse_response (ep : string) (response : FetchOutcome)
    : option GeolocationResponse :=
  match response with
  | FetchThrows => None
  | FetchResponse ok body =>
      if negb ok then None else
      match body with
      | BodyUnparsable | BodyNull => None
      | BodyObject data =>
          Some (if includes ep "ipapi.co" then ipapi_result data
                else custom_result data)
      end
  end.

(** The value returned by the [catch] block. *)
Definition failsafe_result : GeolocationResponse :=
  {| inEU := JBool true; country := JUndef; region := JUndef |}.

Definition cache_fresh (g : GeolocationService) (n : Z) : bool :=
  match cache g with
  | Some _ => Z.ltb (n - cacheTimestamp g) CACHE_DURATION
  | None => false
  end.

(** The [try]/[catch] part of [checkLocation]: one lookup, cached on
    success, the fail-safe result (not cached) on failure. *)
Definition lookup (g : GeolocationService)
    : M (GeolocationResponse * GeolocationService) :=
  perform response := fetch (endpoint g) in
  match parse_response (endpoint g) response with
  | Some result =>
      perform n := date_now in
      ret (result, {| endpoint := endpoint g; cache := Some result;
                      cacheTimestamp := n |})
  | None => ret (failsafe_result, g)
  end.

(** [checkLocation]; the service object is returned with its new cache. *)
Definition checkLocation (g : GeolocationService)
    : M (GeolocationResponse * GeolocationService) :=
  perform n := date_now in
  match cache g with
  | Some c =>
      if Z.ltb (n - cacheTimestamp g) CACHE_DURATION then ret (c, g)
      else lookup g
  | None => lookup g
  end.

Definition clearCache (g : GeolocationService) : GeolocationService :=
  {| endpoint := endpoint g; cache := None; cacheTimestamp := 0 |}.

(** ** The CookieDialog class *)

(** [Partial<CookieDialogConfig>]: [None] is a key the caller left out; a
    callback is recorded only as present or absent. Display-only options
    (position, theme, URLs, translations) are left out. *)
Record PartialConfig := {
  p_enableLocation : option bool;
  p_autoShow : option bool;
  p_expiryDays : option Z;
  p_forceShow : option bool;
  p_categories : option (list CookieCategory);
  p_geolocationEndpoint : option string;
  p_onAccept : bool;
  p_onReject : bool;
  p_onChange : bool;
  p_onLocationNotRequired : bool
}.

Record CookieDialogConfig := {
  enableLocation : bool;
  autoShow : bool;
  expiryDays : Z;
  forceShow : bool;
  config_categories : option (list CookieCategory);
  geolocationEndpoint : option string;
  onAccept : bool;
  onReject : bool;
  onChange : bool;
  onLocationNotRequired : bool
}.

(** [mergeConfig]: defaults, then the caller's keys spread over them. *)
Definition mergeConfig (u : PartialConfig) : CookieDialogConfig :=
  {| enableLocation := default false (p_enableLocation u);
     autoShow := default true (p_autoShow u);
     expiryDays := default 365 (p_expiryDays u);
     forceShow := default false (p_forceShow u);
     config_categories := p_categories u;
     geolocationEndpoint := p_geolocationEndpoint u;
     onAccept := p_onAccept u;
     onReject := p_onReject u;
     onChange := p_onChange u;
     onLocationNotRequired := p_onLocationNotRequired u |}.

Definition getDefaultCategories : list CookieCategory :=
  [ {| cat_id := "necessary"; cat_name := "Necessary";
       cat_description := "Essential cookies for the website to function properly";
       cat_required := true |};
    {| cat_id := "analytics"; cat_name := "Analytics";
       cat_description := "Cookies to understand how visitors interact with the website";
       cat_required := false |};
    {| cat_id := "marketing"; cat_name := "Marketing";
       cat_description := "Cookies to deliver personalized advertisements";
       cat_required := false |} ].

(** The fields of a [CookieDialog] instance the logic uses; [storage] is
    the [expiryDays] of its [ConsentStorage]. *)
Record CookieDialog := {
  config : CookieDialogConfig;
  storage : Z;
  geolocation : option GeolocationService;
  dialogElement : bool;
  dialog_categories : list CookieCategory
}.

Definition new_CookieDialog (u : PartialConfig) : CookieDialog :=
  let cfg := mergeConfig u in
  {| config := cfg;
     storage := expiryDays cfg;
     geolocation := if enableLocation cfg
                    then Some (new_GeolocationService (geolocationEndpoint cfg))
                    else None;
     dialogElement := false;
     dialog_categories := default getDefaultCategories (config_categories cfg) |}.

Definition with_geolocation (d : CookieDialog) (g : GeolocationService)
    : CookieDialog :=
  {| config := config d; storage := storage d; geolocation := Some g;
     dialogElement := dialogElement d; dialog_categories := dialog_categories d |}.

Definition with_dialog (d : CookieDialog) : CookieDialog :=
  {| config := config d; storage := storage d; geolocation := geolocation d;
     dialogElement := true; dialog_categories := dialog_categories d |}.

(** [this.categories.forEach(cat => consent[cat.id] = true)] *)
Definition all_true (cats : list CookieCategory) : gmap string bool :=
  fold_left (fun m cat => js_assign m (cat_id cat) true) cats ∅.

Fixpoint forEachM {A} (f : A -> M unit) (l : list A) : M unit :=
  match l with
  | [] => skip
  | x :: l' => perform _ := f x in forEachM f l'
  end.

(** [render]: the settings template reads each category's consent, then the
    dialog is appended to the page. *)
Definition render (d : CookieDialog) : M CookieDialog :=
  perform _ := forEachM (fun cat => perform _ := getCategoryConsent (storage d) (cat_id cat) in skip)
                        (dialog_categories d) in
  perform _ := emit EvShow in
  ret (with_dialog d).

(** [show]: an existing dialog gets its [show] class back. *)
Definition show (d : CookieDialog) : M CookieDialog :=
  if dialogElement d then perform _ := emit EvShow in ret d
  else render d.

(** Where [init] goes after its geolocation step: it returned early, or it
    falls through to the dialog. *)
Inductive InitStep :=
| Returned (d : CookieDialog)
| FallThrough (d : CookieDialog).

(** The [if (this.config.enableLocation && this.geolocation)] block of
    [init]. *)
Definition locationStep (d : CookieDialog) : M InitStep :=
  match enableLocation (config d), geolocation d with
  | true, Some g =>
      perform p := checkLocation g in
      let '(locationData, g') := p in
      let d1 := with_geolocation d g' in
      if negb (truthy (inEU locationData)) && negb (forceShow (config d)) then
        perform consentState :=
          saveConsent (all_true (dialog_categories d)) location_not_required
            (Some {| ld_country := country locationData;
                     ld_region := region locationData;
                     ld_inEU := inEU locationData;
                     ld_detectionMethod := "ip_geolocation" |}) in
        perform _ := (if onLocationNotRequired (config d)
                      then emit (EvOnLocationNotRequired (country locationData)
                                   (region locationData) (inEU locationData))
                      else skip) in
        perform _ := (if onAccept (config d) then emit (EvOnAccept consentState)
                      else skip) in
        ret (Returned d1)
      else ret (FallThrough d1)
  | _, _ => ret (FallThrough d)
  end.

(** The test [!this.config.forceShow && this.storage.hasConsent()]. *)
Definition existingConsent (d : CookieDialog) : M bool :=
  if forceShow (config d) then ret false else hasConsent (storage d).

Definition init (d : CookieDialog) : M CookieDialog :=
  perform has := existingConsent d in
  if has then
    perform consent := getConsent (storage d) in
    perform _ := (match consent with
                  | Some c => if onAccept (config d) then emit (EvOnAccept c) else skip
                  | None => skip
                  end) in
    ret d
  else
    perform step := locationStep d in
    match step with
    | Returned d' => ret d'
    | FallThrough d' => if autoShow (config d) then show d' else ret d'
    end.

(** ** Store-operation sequences *)

(** The operations of [ConsentStorage] a page can run one after another;
    [OpTick] lets the clock move between them. *)
Inductive StoreOp :=
| OpWrite (cats : gmap string bool) (r : Reason) (loc : option LocationData)
| OpUpdate (categoryId : string) (value : bool)
| OpClear
| OpRead
| OpTick (n : Z).

Definition run_op (expiryDays : Z) (op : StoreOp) : M (option ConsentState) :=
  match op with
  | OpWrite cats r loc => perform c := saveConsent cats r loc in ret (Some c)
  | OpUpdate id v => updateCategoryConsent expiryDays id v
  | OpClear => perform _ := clearConsent in ret None
  | OpRead => getConsent expiryDays
  | OpTick n => fun w => (None, set_now w n)
  end.

Fixpoint run_ops (expiryDays : Z) (ops : list StoreOp)
    : M (list (option ConsentState)) :=
  match ops with
  | [] => ret []
  | op :: ops' =>
      perform r := run_op expiryDays op in
      perform rs := run_ops expiryDays ops' in
      ret (r :: rs)
  end.

(** [getConsent] called at each of the times [ns] in turn. *)
Fixpoint read_at_times (expiryDays : Z) (ns : list Z)
    : M (list (option ConsentState)) :=
  match ns with
  | [] => ret []
  | n :: ns' =>
      fun w =>
        let '(r, w1) := getConsent expiryDays (set_now w n) in
        let '(rs, w2) := read_at_times expiryDays ns' w1 in
        (r :: rs, w2)
  end.

(** ** Properties the spec states, as predicates *)

(** Every category declared [required] is [true] in [cats]. *)
Definition required_ok (decl : list CookieCategory) (cats : gmap string bool)
    : Prop :=
  Forall (fun cat => cat_required cat = true -> cats !! cat_id cat = Some true) decl.

(** The spec's [C']: [cats] with every required category forced [true]. *)
Definition force_required (decl : list CookieCategory) (cats : gmap string bool)
    : gmap string bool :=
  fold_left (fun m cat => if cat_required cat then <[cat_id cat := true]> m else m)
    decl cats.

Definition stored_ok (decl : list CookieCategory) (s : option Stored) : Prop :=
  match s with
  | Some (SRecord c) => required_ok decl (categories c)
  | _ => True
  end.

(** An operation that itself keeps required categories [true]. *)
Definition op_respects (decl : list CookieCategory) (op : StoreOp) : Prop :=
  match op with
  | OpWrite cats _ _ => required_ok decl cats
  | OpUpdate id v =>
      v = false -> Forall (fun cat => cat_required cat = true -> cat_id cat <> id) decl
  | _ => True
  end.

(** Computations that only append events other than [EvShow] to the log. *)
Definition no_show {A} (m : M A) : Prop :=
  forall w, exists evs, log (snd (m w)) = log w ++ evs /\ ~ In EvShow evs.

(** ** The dialog's buttons *)

(** [acceptAll]; [this.hide()] only removes CSS classes from the page. *)
Definition acceptAll (d : CookieDialog) : M unit :=
  let consent := all_true (dialog_categories d) in
  perform state := saveConsent consent user_accept None in
  if onAccept (config d) then emit (EvOnAccept state) else skip.

(** [this.categories.forEach(cat => consent[cat.id] = cat.required)] *)
Definition required_flags (cats : list CookieCategory) : gmap string bool :=
  fold_left (fun m cat => js_assign m (cat_id cat) (cat_required cat)) cats ∅.

(** [rejectAll]: [onReject] gets no data. *)
Definition rejectAll (d : CookieDialog) : M unit :=
  perform _ := saveConsent (required_flags (dialog_categories d)) user_reject None in
  if onReject (config d) then emit EvOnReject else skip.

(** A settings checkbox [input[data-category]] as the page holds it. *)
Record Checkbox := {
  cb_category : string;   (* [checkbox.dataset.category] *)
  cb_checked : bool;
  cb_disabled : bool
}.

(** [consent[categoryId] = checkbox.checked] for each box whose
    [data-category] is truthy (a non-empty string). *)
Definition settings_consent (boxes : list Checkbox) : gmap string bool :=
  fold_left (fun m cb => if String.eqb (cb_category cb) "" then m
                         else js_assign m (cb_category cb) (cb_checked cb)) boxes ∅.

(** [saveSettings], given the checkboxes found in the dialog. *)
Definition saveSettings (d : CookieDialog) (boxes : list Checkbox) : M unit :=
  perform state := saveConsent (settings_consent boxes) user_accept None in
  if onChange (config d) then emit (EvOnChange state) else skip.

(** [isGDPRRequired] *)
Definition isGDPRRequired (g : GeolocationService)
    : M (jsval * GeolocationService) :=
  perform p := checkLocation g in ret (inEU (fst p), snd p).

(** A location result whose [inEU] is falsy carries exactly [false]. *)
Definition falsy_is_false (r : GeolocationResponse) : Prop :=
  truthy (inEU r) = false -> inEU r = JBool false.

Definition cache_falsy_is_false (g : GeolocationService) : Prop :=
  match cache g with
  | Some r => falsy_is_false r
  | None => True
  end.

(** ** What a computation may append to the log *)

(** Computations that only append events satisfying [P]. *)
Definition only {A} (P : Event -> Prop) (m : M A) : Prop :=
  forall w, exists evs, log (snd (m w)) = log w ++ evs /\ Forall P evs.

(** What [init] may do with location detection off, [stored] being the
    storage content it starts from: remove the stored record, show the
    dialog, or call [onAccept] with the stored record. *)
Definition init_quiet_event (stored : option Stored) (e : Event) : Prop :=
  match e with
  | EvRemove _ | EvShow => True
  | EvOnAccept c => stored = Some (SRecord c)
  | _ => False
  end.

(** Neither a storage write nor a consent callback. *)
Definition no_consent_event (e : Event) : Prop :=
  match e with
  | EvSet _ _ | EvOnAccept _ | EvOnLocationNotRequired _ _ _ => False
  | _ => True
  end.

(** ** Concrete worlds and configurations for the examples *)

Definition example_world : World :=
  {| ls := None; now := 1700000000000; set_throws := false;
     remove_throws := false; net := FetchThrows; log := [] |}.

Definition example_record : ConsentState :=
  {| timestamp := 1699999000000;
     categories := <["marketing" := true]> (<["analytics" := false]>
                     {[ "necessary" := true ]});
     version := STORAGE_VERSION; reason := user_accept; locationData := None |}.

(** Storage holding a valid record, [setItem] throwing (quota exceeded). *)
Definition quota_world : World :=
  {| ls := Some (SRecord example_record); now := 1700000000000;
     set_throws := true; remove_throws := false; net := FetchThrows; log := [] |}.

(** The options of [CookieDialog.init({...})] used by the examples:
    callbacks [onAccept] and [onLocationNotRequired] given. *)
Definition example_options (enable : bool) (auto : option bool) : PartialConfig :=
  {| p_enableLocation := Some enable; p_autoShow := auto; p_expiryDays := None;
     p_forceShow := None; p_categories := None; p_geolocationEndpoint := None;
     p_onAccept := true; p_onReject := false; p_onChange := false;
     p_onLocationNotRequired := true |}.

(** An ipapi.co answer for a visitor in the United States. *)
Definition us_response : FetchOutcome :=
  FetchResponse true (BodyObject
    {| d_country_code := JStr "US"; d_country_name := JStr "United States";
       d_region := JStr "California"; d_inEU := JUndef; d_in_eu := JUndef;
       d_country := JUndef |}).

Definition us_world : World :=
  {| ls := None; now := 1700000000000; set_throws := false;
     remove_throws := false; net := us_response; log := [] |}.



(** A caller-supplied endpoint whose URL happens to contain [ipapi.co]. *)
Definition proxy_endpoint : string := "https://geo.example.com/ipapi.co-compatible".

(** ** Proofs *)

Ltac run :=
  cbv [bind ret skip emit date_now getItem setItem removeItem fetch
       clearConsent getConsent saveConsent hasConsent updateCategoryConsent
       getCategoryConsent lookup checkLocation];
  cbn -[Z.mul Z.add Z.sub Z.ltb String.eqb insert lookup].

Lemma getConsent_valid (expiryDays : Z) (w : World) (c : ConsentState) :
  ls w = Some (SRecord c) ->
  now w <= timestamp c + expiryDays * 24 * 60 * 60 * 1000 ->
  version c = STORAGE_VERSION ->
  getConsent expiryDays w = (Some c, w).
Proof.
  intros Hls Ht Hv. run. rewrite Hls.
  replace (Z.ltb _ _) with false by (symmetry; apply Z.ltb_ge; lia).
  rewrite Hv. reflexivity.
Qed.

Lemma getConsent_expired (expiryDays : Z) (w : World) (c : ConsentState) :
  ls w = Some (SRecord c) ->
  timestamp c + expiryDays * 24 * 60 * 60 * 1000 < now w ->
  getConsent expiryDays w
  = (None, if remove_throws w then add_log w (EvRemove false)
           else add_log (set_ls w None) (EvRemove true)).
Proof.
  intros Hls Ht. run. rewrite Hls.
  replace (Z.ltb _ _) with true by (symmetry; apply Z.ltb_lt; lia).
  destruct (remove_throws w); reflexivity.
Qed.

(** C1 (amended): reading right after a successful write gives back the
    written record, with the categories exactly as passed (no required
    category forced) and the reason passed. *)
Theorem saveConsent_getConsent (expiryDays : Z) (cats : gmap string bool)
    (r : Reason) (loc : option LocationData) (w : World) :
  0 <= expiryDays -> set_throws w = false ->
  let '(c, w1) := saveConsent cats r loc w in
  getConsent expiryDays w1 = (Some c, w1) /\ categories c = cats /\
  reason c = r /\ timestamp c = now w.
Proof.
  intros Hd Hset. cbv [saveConsent bind ret date_now setItem]. rewrite Hset.
  repeat split. apply getConsent_valid; cbn; [reflexivity | lia | reflexivity].
Qed.

Lemma saveConsent_getConsent_witness :
  0 <= 365 /\ set_throws example_world = false /\
  (let '(c, w1) := saveConsent {[ "necessary" := false ]} user_reject None example_world in
   getConsent 365 w1 = (Some c, w1) /\ categories c = {[ "necessary" := false ]} /\
   reason c = user_reject /\ timestamp c = now example_world).
Proof.
  split; [lia |]. split; [reflexivity |].
  apply (saveConsent_getConsent 365 {[ "necessary" := false ]} user_reject None
           example_world); [lia | reflexivity].
Defined.

(** C1 (counterexample): with the default categories ([necessary] required),
    writing [{necessary: false}] and reading back does not give the record
    with [necessary] forced to [true]. *)
Lemma saveConsent_required_not_forced :
  ~ (exists c,
       fst (getConsent 365 (snd (saveConsent {[ "necessary" := false ]} user_accept
                                   None example_world))) = Some c /\
       categories c = force_required getDefaultCategories {[ "necessary" := false ]} /\
       reason c = user_accept).
Proof.
  intros [c [Hread [Hcats _]]]. vm_compute in Hread. injection Hread as <-.
  pose proof (f_equal (fun m : gmap string bool => m !! "necessary") Hcats) as H.
  vm_compute in H. discriminate.
Qed.

(** C4 (amended): when [setItem] throws, [saveConsent] still returns the
    record it built (and storage keeps what it had), while
    [updateCategoryConsent] returns [null]. Neither raises. *)
Theorem store_write_failure (expiryDays : Z) (cats : gmap string bool)
    (r : Reason) (loc : option LocationData) (categoryId : string)
    (value : bool) (w : World) :
  set_throws w = true ->
  let c := {| timestamp := now w; categories := cats; version := STORAGE_VERSION;
              reason := r; locationData := loc |} in
  saveConsent cats r loc w = (c, add_log w (EvSet c false)) /\
  fst (updateCategoryConsent expiryDays categoryId value w) = None.
Proof.
  intros Hset c. split.
  - cbv [saveConsent bind ret date_now setItem]. rewrite Hset. reflexivity.
  - run. destruct (ls w) as [[cs | s] |]; cbn; try reflexivity.
    destruct (Z.ltb _ _).
    + destruct (remove_throws w); reflexivity.
    + destruct (negb _).
      * destruct (remove_throws w); reflexivity.
      * rewrite Hset. reflexivity.
Qed.

Lemma store_write_failure_witness :
  set_throws quota_world = true /\
  (let c := {| timestamp := now quota_world; categories := {[ "necessary" := true ]};
               version := STORAGE_VERSION; reason := user_accept; locationData := None |} in
   saveConsent {[ "necessary" := true ]} user_accept None quota_world
   = (c, add_log quota_world (EvSet c false)) /\
   fst (updateCategoryConsent 365 "analytics" true quota_world) = None).
Proof.
  split; [reflexivity |].
  apply (store_write_failure 365 {[ "necessary" := true ]} user_accept None
           "analytics" true quota_world). reflexivity.
Defined.

(** C4 (counterexample): with a valid record stored and [setItem]
    throwing, [updateCategoryConsent] returns [null], not the updated
    record. *)
Lemma updateCategoryConsent_quota_null :
  (exists c, fst (getConsent 365 quota_world) = Some c) /\
  fst (updateCategoryConsent 365 "analytics" true quota_world) = None.
Proof.
  split; [| vm_compute; reflexivity].
  exists example_record. vm_compute. reflexivity.
Qed.

(** C7: a record written at time [t] with [expiryDays = d] is read back
    unchanged (storage untouched, so reading does not move its creation time)
    at every time [n <= t + d*86400000], and at every [n > t + d*86400000]
    reads as absent with the stored entry removed. *)
Theorem saveConsent_expiry (expiryDays : Z) (cats : gmap string bool)
    (r : Reason) (loc : option LocationData) (w : World) (n : Z) :
  set_throws w = false -> remove_throws w = false ->
  let '(c, w1) := saveConsent cats r loc w in
  timestamp c = now w /\
  (n <= now w + expiryDays * 86400000 ->
   getConsent expiryDays (set_now w1 n) = (Some c, set_now w1 n)) /\
  (now w + expiryDays * 86400000 < n ->
   getConsent expiryDays (set_now w1 n)
   = (None, add_log (set_ls (set_now w1 n) None) (EvRemove true))).
Proof.
  intros Hset Hrem. cbv [saveConsent bind ret date_now setItem]. rewrite Hset.
  split; [reflexivity | split; intros Hn].
  - apply getConsent_valid; cbn; [reflexivity | lia | reflexivity].
  - rewrite (getConsent_expired _ _
               {| timestamp := now w; categories := cats; version := STORAGE_VERSION;
                  reason := r; locationData := loc |}); cbn; [| reflexivity | lia].
    rewrite Hrem. reflexivity.
Qed.

Lemma saveConsent_expiry_witness :
  set_throws example_world = false /\ remove_throws example_world = false /\
  (let '(c, w1) := saveConsent {[ "necessary" := true ]} user_accept None example_world in
   timestamp c = now example_world /\
   (now example_world + 30 * 86400000 - 1 <= now example_world + 30 * 86400000 ->
    getConsent 30 (set_now w1 (now example_world + 30 * 86400000 - 1))
    = (Some c, set_now w1 (now example_world + 30 * 86400000 - 1))) /\
   (now example_world + 30 * 86400000 < now example_world + 30 * 86400000 - 1 ->
    getConsent 30 (set_now w1 (now example_world + 30 * 86400000 - 1))
    = (None, add_log (set_ls (set_now w1 (now example_world + 30 * 86400000 - 1)) None)
               (EvRemove true)))).
Proof.
  split; [reflexivity |]. split; [reflexivity |].
  apply (saveConsent_expiry 30 {[ "necessary" := true ]} user_accept None example_world
           (now example_world + 30 * 86400000 - 1)); reflexivity.
Defined.

(** C9: bytes [JSON.parse] rejects are never removed by reading: every read,
    at any sequence of later times, returns absent, and storage and the log
    are left as they were. *)
Theorem getConsent_malformed_persists (expiryDays : Z) (s : string)
    (w : World) (ns : list Z) :
  ls w = Some (SMalformed s) ->
  fst (read_at_times expiryDays ns w) = map (fun _ => None) ns /\
  ls (snd (read_at_times expiryDays ns w)) = ls w /\
  log (snd (read_at_times expiryDays ns w)) = log w.
Proof.
  revert w. induction ns as [| n ns IH]; intros w Hls.
  - cbn. auto.
  - cbn [read_at_times].
    assert (Hg : getConsent expiryDays (set_now w n) = (None, set_now w n))
      by (run; rewrite Hls; reflexivity).
    rewrite Hg.
    destruct (IH (set_now w n) Hls) as (H1 & H2 & H3).
    destruct (read_at_times expiryDays ns (set_now w n)) as [rs w2]. cbn in *.
    rewrite H1. auto.
Qed.

Lemma getConsent_malformed_persists_witness :
  ls (set_ls example_world (Some (SMalformed "{not json"))) = Some (SMalformed "{not json") /\
  (let w := set_ls example_world (Some (SMalformed "{not json")) in
   fst (read_at_times 365 [1; 2; 3] w) = map (fun _ => None) [1; 2; 3] /\
   ls (snd (read_at_times 365 [1; 2; 3] w)) = ls w /\
   log (snd (read_at_times 365 [1; 2; 3] w)) = log w).
Proof.
  split; [reflexivity |].
  apply (getConsent_malformed_persists 365 "{not json"
           (set_ls example_world (Some (SMalformed "{not json"))) [1; 2; 3]).
  reflexivity.
Defined.

Lemma getConsent_shape (expiryDays : Z) (w : World) :
  let '(r, w') := getConsent expiryDays w in
  (forall c, r = Some c -> ls w = Some (SRecord c)) /\
  (ls w' = ls w \/ ls w' = None) /\
  set_throws w' = set_throws w.
Proof.
  run. destruct (ls w) as [[c | s] |] eqn:Hls; cbn;
    try (split; [discriminate | auto]).
  destruct (Z.ltb _ _); [| destruct (negb _)].
  1, 2: destruct (remove_throws w); cbn; (split; [discriminate | auto]).
  split; [intros c' [= <-]; reflexivity | auto].
Qed.

Lemma required_ok_insert (decl : list CookieCategory) (cats : gmap string bool)
    (id : string) (v : bool) :
  required_ok decl cats ->
  (v = false -> Forall (fun cat => cat_required cat = true -> cat_id cat <> id) decl) ->
  required_ok decl (<[id := v]> cats).
Proof.
  intros Hok Hv. unfold required_ok in *.
  destruct v.
  - eapply Forall_impl; [exact Hok |]. intros cat H Hreq.
    destruct (decide (cat_id cat = id)) as [<- | Hne].
    + apply lookup_insert_eq.
    + rewrite lookup_insert_ne by congruence. auto.
  - specialize (Hv eq_refl). rewrite Forall_forall in *. intros cat Hin Hreq.
    rewrite lookup_insert_ne by (apply not_eq_sym, (Hv cat Hin Hreq)). auto.
Qed.

Lemma js_assign_ne (m : gmap string bool) (k : string) (v : bool) :
  k <> "__proto__" -> js_assign m k v = <[k := v]> m.
Proof.
  intros Hk. unfold js_assign.
  destruct (String.eqb k "__proto__") eqn:E; [apply String.eqb_eq in E; contradiction | reflexivity].
Qed.

Lemma js_assign_lookup_ne (m : gmap string bool) (k id : string) (v : bool) :
  id <> k -> js_assign m k v !! id = m !! id.
Proof.
  intros Hne. unfold js_assign.
  destruct (String.eqb k "__proto__"); [destruct (m !! k) |];
    try (apply lookup_insert_ne; congruence); reflexivity.
Qed.

Lemma js_assign_proto_none (m : gmap string bool) (k : string) (v : bool) :
  m !! "__proto__" = None -> js_assign m k v !! "__proto__" = None.
Proof.
  intros Hm. destruct (decide (k = "__proto__")) as [-> | Hne].
  - unfold js_assign. cbn. rewrite Hm. exact Hm.
  - rewrite js_assign_lookup_ne by congruence. exact Hm.
Qed.

Lemma fold_js_proto {A} (f : A -> string) (g : A -> bool) (l : list A)
    (m : gmap string bool) :
  m !! "__proto__" = None ->
  fold_left (fun m a => js_assign m (f a) (g a)) l m !! "__proto__" = None.
Proof.
  revert m. induction l as [| a l IH]; intros m Hm; cbn; [exact Hm |].
  apply IH. apply js_assign_proto_none. exact Hm.
Qed.

Lemma required_ok_js_assign (decl : list CookieCategory) (cats : gmap string bool)
    (id : string) (v : bool) :
  required_ok decl cats ->
  (v = false -> Forall (fun cat => cat_required cat = true -> cat_id cat <> id) decl) ->
  required_ok decl (js_assign cats id v).
Proof.
  intros Hok Hv. unfold js_assign.
  destruct (String.eqb id "__proto__"); [destruct (cats !! id) |];
    solve [apply required_ok_insert; assumption | exact Hok].
Qed.

Lemma run_op_required (decl : list CookieCategory) (expiryDays : Z)
    (op : StoreOp) (w : World) :
  stored_ok decl (ls w) -> op_respects decl op ->
  let '(r, w') := run_op expiryDays op w in
  stored_ok decl (ls w') /\
  (forall c, r = Some c -> required_ok decl (categories c)).
Proof.
  intros Hst Hop. destruct op as [cats r loc | id v | | | n]; cbn [run_op].
  - cbv [saveConsent bind ret date_now setItem]. cbn in Hop.
    destruct (set_throws w); cbn; (split; [auto | intros c [= <-]; exact Hop]).
  - pose proof (getConsent_shape expiryDays w) as Hshape.
    cbv [updateCategoryConsent bind].
    destruct (getConsent expiryDays w) as [[c |] w'] eqn:Hg;
      destruct Hshape as (Hres & Hls & Hset).
    + specialize (Hres c eq_refl).
      cbv [ret date_now setItem]. rewrite Hset.
      assert (Hc : required_ok decl (js_assign (categories c) id v))
        by (apply required_ok_js_assign; [rewrite Hres in Hst; exact Hst | exact Hop]).
      destruct (set_throws w); cbn.
      * split; [destruct Hls as [-> | ->]; [exact Hst | exact I] | discriminate].
      * split; [exact Hc | intros c' [= <-]; exact Hc].
    + cbv [ret]. split; [destruct Hls as [-> | ->]; [exact Hst | exact I] | discriminate].
  - cbv [clearConsent bind ret skip removeItem].
    destruct (remove_throws w); cbn; (split; [auto | discriminate]).
  - pose proof (getConsent_shape expiryDays w) as Hshape.
    destruct (getConsent expiryDays w) as [r w'].
    destruct Hshape as (Hres & Hls & _). split.
    + destruct Hls as [-> | ->]; [exact Hst | exact I].
    + intros c Hc. specialize (Hres c Hc). rewrite Hres in Hst. exact Hst.
  - cbn. split; [exact Hst | discriminate].
Qed.

(** C2 (amended): the store does not force required categories itself; a
    record it returns keeps every required category [true] only because the
    callers did: if storage starts that way, every write passes the required
    categories as [true] and no [updateCategoryConsent] sets a required one to
    [false], then every record any operation of the sequence returns (reads
    included) maps every required category to [true]. *)
Theorem run_ops_required (decl : list CookieCategory) (expiryDays : Z)
    (ops : list StoreOp) (w : World) :
  stored_ok decl (ls w) -> Forall (op_respects decl) ops ->
  Forall (fun r => forall c, r = Some c -> required_ok decl (categories c))
    (fst (run_ops expiryDays ops w)).
Proof.
  revert w. induction ops as [| op ops IH]; intros w Hst Hops.
  - constructor.
  - apply Forall_cons_1 in Hops as [Hop Hops].
    pose proof (run_op_required decl expiryDays op w Hst Hop) as Hstep.
    cbn [run_ops]. cbv [bind ret] in *.
    destruct (run_op expiryDays op w) as [r w'].
    destruct Hstep as [Hst' Hr].
    specialize (IH w' Hst' Hops).
    destruct (run_ops expiryDays ops w') as [rs w'']. cbn in *.
    constructor; assumption.
Qed.

Lemma run_ops_required_witness :
  stored_ok getDefaultCategories (ls example_world) /\
  Forall (op_respects getDefaultCategories)
    [OpWrite (all_true getDefaultCategories) user_accept None;
     OpUpdate "analytics" false; OpRead] /\
  Forall (fun r => forall c, r = Some c -> required_ok getDefaultCategories (categories c))
    (fst (run_ops 365 [OpWrite (all_true getDefaultCategories) user_accept None;
                       OpUpdate "analytics" false; OpRead] example_world)).
Proof.
  assert (Hst : stored_ok getDefaultCategories (ls example_world)) by exact I.
  assert (Hops : Forall (op_respects getDefaultCategories)
    [OpWrite (all_true getDefaultCategories) user_accept None;
     OpUpdate "analytics" false; OpRead]).
  { repeat constructor; cbn; try discriminate; vm_compute; reflexivity. }
  split; [exact Hst |]. split; [exact Hops |].
  exact (run_ops_required getDefaultCategories 365 _ example_world Hst Hops).
Defined.

(** C2 (counterexample): with the default categories, accepting all and
    then [updateCategoryConsent("necessary", false)] leaves a record that the
    next read returns with [necessary] set to [false]. *)
Lemma update_required_category_false :
  match fst (run_ops 365 [OpWrite (all_true getDefaultCategories) user_accept None;
                          OpUpdate "necessary" false; OpRead] example_world) !! 2%nat with
  | Some (Some c) => categories c !! "necessary" = Some false
  | _ => False
  end.
Proof. vm_compute. reflexivity. Qed.

(** C3: with [forceShow] false and a valid record stored, [init] calls
    [onAccept] with exactly that record and does nothing else: no write, no
    [fetch], the geolocation service and the storage untouched. *)
Theorem init_existing_consent (d : CookieDialog) (w : World) (c : ConsentState) :
  forceShow (config d) = false -> onAccept (config d) = true ->
  ls w = Some (SRecord c) ->
  now w <= timestamp c + storage d * 24 * 60 * 60 * 1000 ->
  version c = STORAGE_VERSION ->
  init d w = (d, add_log w (EvOnAccept c)).
Proof.
  intros Hforce Hacc Hls Ht Hv.
  pose proof (getConsent_valid (storage d) w c Hls Ht Hv) as Hg.
  cbv [init existingConsent hasConsent bind]. rewrite Hforce, Hg.
  cbv [ret]. rewrite bool_decide_eq_true_2 by discriminate.
  rewrite Hg, Hacc. reflexivity.
Qed.

Lemma init_existing_consent_witness :
  init (new_CookieDialog (example_options true None))
       (set_ls example_world (Some (SRecord example_record)))
  = (new_CookieDialog (example_options true None),
     add_log (set_ls example_world (Some (SRecord example_record)))
       (EvOnAccept example_record)).
Proof.
  apply init_existing_consent; vm_compute; try reflexivity. discriminate.
Defined.

Lemma cache_fresh_later (g : GeolocationService) (n n' : Z) :
  cache_fresh g n = false -> n <= n' -> cache_fresh g n' = false.
Proof.
  unfold cache_fresh. destruct (cache g); [| reflexivity].
  rewrite !Z.ltb_ge. lia.
Qed.

Lemma checkLocation_miss (g : GeolocationService) (w : World) :
  cache_fresh g (now w) = false -> checkLocation g w = lookup g w.
Proof.
  unfold cache_fresh. intros H. cbv [checkLocation bind date_now].
  destruct (cache g); [rewrite H |]; reflexivity.
Qed.

Lemma lookup_log (g : GeolocationService) (w : World) :
  log (snd (lookup g w)) = log w ++ [EvFetch (endpoint g)].
Proof.
  cbv [lookup bind fetch]. destruct (parse_response _ _); reflexivity.
Qed.

(** C5: a lookup that throws or answers with a non-success status gives the
    fail-safe result ([inEU = true], no country or region), leaves the
    service's cache as it was, and so the next [checkLocation], at any later
    time, performs a [fetch] again. *)
Theorem checkLocation_failure_not_cached (g : GeolocationService) (w : World) :
  cache_fresh g (now w) = false ->
  (net w = FetchThrows \/ exists b, net w = FetchResponse false b) ->
  checkLocation g w = ((failsafe_result, g), add_log w (EvFetch (endpoint g))) /\
  forall w', now w <= now w' ->
    log (snd (checkLocation g w')) = log w' ++ [EvFetch (endpoint g)].
Proof.
  intros Hfresh Hnet. split.
  - rewrite checkLocation_miss by exact Hfresh.
    cbv [lookup bind fetch]. cbn.
    destruct Hnet as [-> | [b ->]]; reflexivity.
  - intros w' Hle. rewrite checkLocation_miss.
    + apply lookup_log.
    + exact (cache_fresh_later g (now w) (now w') Hfresh Hle).
Qed.

Lemma checkLocation_failure_not_cached_witness :
  checkLocation (new_GeolocationService None) example_world
  = ((failsafe_result, new_GeolocationService None),
     add_log example_world (EvFetch (endpoint (new_GeolocationService None)))) /\
  (forall w', now example_world <= now w' ->
   log (snd (checkLocation (new_GeolocationService None) w'))
   = log w' ++ [EvFetch (endpoint (new_GeolocationService None))]).
Proof.
  apply checkLocation_failure_not_cached; [reflexivity | left; reflexivity].
Defined.

(** C10: which adapter reads a successful response depends only on whether
    the endpoint URL contains ["ipapi.co"], wherever it occurs: such
    endpoints map [country_code] through the EU/EEA/UK list, every other
    endpoint reads [inEU || in_eu || false]. *)
Theorem checkLocation_dispatch (g : GeolocationService) (w : World) (data : GeoData) :
  cache_fresh g (now w) = false ->
  net w = FetchResponse true (BodyObject data) ->
  fst (fst (checkLocation g w))
  = if includes (endpoint g) "ipapi.co"
    then {| inEU := JBool (euCountries_includes (d_country_code data));
            country := d_country_name data; region := d_region data |}
    else {| inEU := js_or (js_or (d_inEU data) (d_in_eu data)) (JBool false);
            country := d_country data; region := d_region data |}.
Proof.
  intros Hfresh Hnet. rewrite checkLocation_miss by exact Hfresh.
  cbv [lookup bind fetch]. cbn. rewrite Hnet. cbn.
  destruct (includes (endpoint g) "ipapi.co"); reflexivity.
Qed.

Lemma checkLocation_dispatch_witness :
  let data := {| d_country_code := JStr "US"; d_country_name := JStr "United States";
                 d_region := JUndef; d_inEU := JBool true; d_in_eu := JUndef;
                 d_country := JStr "US" |} in
  fst (fst (checkLocation (new_GeolocationService (Some proxy_endpoint))
                          (set_ls {| ls := None; now := 0; set_throws := false;
                                     remove_throws := false;
                                     net := FetchResponse true (BodyObject data);
                                     log := [] |} None)))
  = {| inEU := JBool false; country := JStr "United States"; region := JUndef |}.
Proof.
  intros data.
  rewrite (checkLocation_dispatch _ _ data); [| reflexivity | reflexivity].
  vm_compute. reflexivity.
Defined.

Lemma all_true_lookup (cats : list CookieCategory) (id : string) :
  all_true cats !! id
  = if decide (id ∈ map cat_id cats /\ id <> "__proto__") then Some true else None.
Proof.
  unfold all_true. destruct (decide (id = "__proto__")) as [-> | Hp].
  { rewrite (fold_js_proto cat_id (fun _ => true)) by apply lookup_empty.
    destruct (decide _) as [[_ H] |]; [congruence | reflexivity]. }
  assert (Hgen : forall m : gmap string bool,
    fold_left (fun m cat => js_assign m (cat_id cat) true) cats m !! id
    = if decide (id ∈ map cat_id cats) then Some true else m !! id).
  { induction cats as [| cat cats IH]; intros m; cbn.
    - reflexivity.
    - rewrite IH. destruct (decide (cat_id cat = id)) as [<- | Hne].
      + rewrite js_assign_ne by exact Hp. rewrite lookup_insert_eq.
        destruct (decide _); destruct (decide _); set_solver.
      + rewrite js_assign_lookup_ne by congruence.
        destruct (decide (id ∈ map cat_id cats)); destruct (decide (id ∈ cat_id cat :: map cat_id cats));
          set_solver. }
  rewrite Hgen. destruct (decide (id ∈ map cat_id cats)); destruct (decide _); tauto.
Qed.




Lemma no_show_ret {A} (a : A) : no_show (ret a).
Proof. intros w. exists []. cbn. rewrite app_nil_r. auto. Qed.

Lemma no_show_bind {A B} (m : M A) (k : A -> M B) :
  no_show m -> (forall a, no_show (k a)) -> no_show (bind m k).
Proof.
  intros Hm Hk w. cbv [bind]. destruct (Hm w) as (e1 & H1 & N1).
  destruct (m w) as [a w']. cbn in H1.
  destruct (Hk a w') as (e2 & H2 & N2). exists (e1 ++ e2).
  rewrite H2, H1, <- app_assoc. split; [reflexivity |].
  rewrite in_app_iff. tauto.
Qed.

Lemma no_show_getItem : no_show getItem.
Proof. intros w. exists []. cbn. rewrite app_nil_r. auto. Qed.

Lemma no_show_date_now : no_show date_now.
Proof. intros w. exists []. cbn. rewrite app_nil_r. auto. Qed.

Lemma no_show_setItem (c : ConsentState) : no_show (setItem c).
Proof.
  intros w. cbv [setItem]. destruct (set_throws w); eexists;
    (split; [reflexivity | cbn; intros [H | []]; discriminate]).
Qed.

Lemma no_show_removeItem : no_show removeItem.
Proof.
  intros w. cbv [removeItem]. destruct (remove_throws w); eexists;
    (split; [reflexivity | cbn; intros [H | []]; discriminate]).
Qed.

Lemma no_show_fetch (url : string) : no_show (fetch url).
Proof.
  intros w. eexists. split; [reflexivity | cbn; intros [H | []]; discriminate].
Qed.

Ltac no_show_tac :=
  repeat first
    [ apply no_show_ret | apply no_show_getItem | apply no_show_date_now
    | apply no_show_setItem | apply no_show_removeItem | apply no_show_fetch
    | apply no_show_bind; intros
    | match goal with
      | |- no_show (match ?x with _ => _ end) => destruct x
      | |- no_show (if ?b then _ else _) => destruct b
      end ].

Lemma no_show_getConsent (expiryDays : Z) : no_show (getConsent expiryDays).
Proof. cbv [getConsent clearConsent skip]. no_show_tac. Qed.

Lemma no_show_checkLocation (g : GeolocationService) : no_show (checkLocation g).
Proof. cbv [checkLocation lookup]. no_show_tac. Qed.

Lemma no_show_render_reads (d : CookieDialog) :
  no_show (forEachM (fun cat => perform _ := getCategoryConsent (storage d) (cat_id cat) in skip)
                    (dialog_categories d)).
Proof.
  induction (dialog_categories d) as [| cat cats IH]; cbn [forEachM].
  - apply no_show_ret.
  - apply no_show_bind; intros; [| exact IH].
    cbv [getCategoryConsent skip]. apply no_show_bind; intros; [| apply no_show_ret].
    apply no_show_bind; intros; [apply no_show_getConsent |].
    destruct a; apply no_show_ret.
Qed.

Lemma show_logs_show (d : CookieDialog) (w : World) :
  exists evs, log (snd (show d w)) = log w ++ evs /\ In EvShow evs.
Proof.
  cbv [show]. destruct (dialogElement d).
  - exists [EvShow]. split; [reflexivity | left; reflexivity].
  - cbv [render]. unfold bind at 1.
    destruct (no_show_render_reads d w) as (e1 & H1 & _).
    destruct (forEachM _ _ w) as [u w']. cbn in H1 |- *.
    exists (e1 ++ [EvShow]). rewrite H1, <- app_assoc. split; [reflexivity |].
    apply in_app_iff. right. left. reflexivity.
Qed.

Lemma locationStep_fallthrough (d : CookieDialog) (w1 : World) :
  (enableLocation (config d) = false \/ geolocation d = None \/
   exists g, geolocation d = Some g /\
     (forceShow (config d) = true \/ truthy (inEU (fst (fst (checkLocation g w1)))) = true)) ->
  exists d' w2 evs, locationStep d w1 = (FallThrough d', w2) /\ config d' = config d /\
    log w2 = log w1 ++ evs /\ ~ In EvShow evs.
Proof.
  intros Hcase. cbv [locationStep].
  destruct (enableLocation (config d)) eqn:Hen;
    [| exists d, w1, []; rewrite app_nil_r; auto].
  destruct (geolocation d) as [g |] eqn:Hgeo;
    [| exists d, w1, []; rewrite app_nil_r; auto].
  destruct Hcase as [Hf | [Hf | (g0 & Hg0 & Hc)]]; [discriminate | discriminate |].
  injection Hg0 as <-.
  destruct (no_show_checkLocation g w1) as (evs & Hlog & Hns).
  cbv [bind]. destruct (checkLocation g w1) as [[loc g'] w2] eqn:E. cbn in Hc, Hlog.
  replace (negb (truthy (inEU loc)) && negb (forceShow (config d))) with false
    by (destruct Hc as [-> | ->]; [symmetry; apply andb_false_r | reflexivity]).
  exists (with_geolocation d g'), w2, evs. cbv [ret]. auto.
Qed.

(** C8 (amended): whenever [init] reaches the dialog step (no existing
    consent taken, or [forceShow]; and geolocation off, or its result
    requiring consent, fail-safe included, or [forceShow]), it shows the
    dialog exactly when [autoShow] is set (default [true]). *)
Theorem init_step3_show (d : CookieDialog) (w w1 : World) :
  existingConsent d w = (false, w1) ->
  (enableLocation (config d) = false \/ geolocation d = None \/
   exists g, geolocation d = Some g /\
     (forceShow (config d) = true \/ truthy (inEU (fst (fst (checkLocation g w1)))) = true)) ->
  exists evs, log (snd (init d w)) = log w1 ++ evs /\
    (In EvShow evs <-> autoShow (config d) = true).
Proof.
  intros Hex Hcase.
  destruct (locationStep_fallthrough d w1 Hcase) as (d' & w2 & e1 & Hstep & Hcfg & Hlog & Hns).
  cbv [init]. unfold bind at 1. rewrite Hex. unfold bind at 1. rewrite Hstep.
  destruct (autoShow (config d)).
  - destruct (show_logs_show d' w2) as (e2 & H2 & Hin).
    exists (e1 ++ e2). rewrite H2, Hlog, <- app_assoc. split; [reflexivity |].
    split; [reflexivity | intros _; apply in_app_iff; right; exact Hin].
  - exists e1. cbn. split; [exact Hlog |]. split; [contradiction | discriminate].
Qed.

Lemma init_step3_show_witness :
  exists evs,
    log (snd (init (new_CookieDialog (example_options false None)) example_world))
    = log example_world ++ evs /\
    (In EvShow evs <-> autoShow (config (new_CookieDialog (example_options false None))) = true).
Proof.
  apply (init_step3_show (new_CookieDialog (example_options false None))
           example_world example_world).
  - vm_compute. reflexivity.
  - left. reflexivity.
Defined.

(** C8 (counterexample): with [autoShow: false], a fresh page and
    geolocation off, [init] reaches the dialog step and shows nothing. *)
Lemma init_autoShow_false_no_dialog :
  existingConsent (new_CookieDialog (example_options false (Some false))) example_world
  = (false, example_world) /\
  enableLocation (config (new_CookieDialog (example_options false (Some false)))) = false /\
  ~ In EvShow (log (snd (init (new_CookieDialog (example_options false (Some false)))
                              example_world))).
Proof.
  split; [vm_compute; reflexivity |]. split; [reflexivity |].
  vm_compute. intros [].
Qed.

(** ** Further properties of [ConsentStorage] *)

(** [clearConsent] empties the key when [removeItem] works; a second call
    changes nothing more, and [hasConsent] is then [false]. *)
Theorem clearConsent_twice_absent (expiryDays : Z) (w : World) :
  remove_throws w = false ->
  ls (snd (clearConsent w)) = None /\
  ls (snd (clearConsent (snd (clearConsent w)))) = None /\
  fst (hasConsent expiryDays (snd (clearConsent w))) = false /\
  fst (hasConsent expiryDays (snd (clearConsent (snd (clearConsent w))))) = false.
Proof.
  intros Hrem. cbv [clearConsent bind skip ret removeItem]. rewrite Hrem.
  cbn. rewrite Hrem. cbn. repeat split.
Qed.

Lemma clearConsent_twice_absent_witness :
  ls (snd (clearConsent quota_world)) = None /\
  ls (snd (clearConsent (snd (clearConsent quota_world)))) = None /\
  fst (hasConsent 365 (snd (clearConsent quota_world))) = false /\
  fst (hasConsent 365 (snd (clearConsent (snd (clearConsent quota_world))))) = false.
Proof. apply clearConsent_twice_absent. reflexivity. Defined.

(** After a successful [saveConsent], [getCategoryConsent(id)] is [true]
    exactly when the saved mapping has [id] set to [true]; unknown ids and
    ids saved as [false] give [false]. *)
Theorem saveConsent_getCategoryConsent (expiryDays : Z) (cats : gmap string bool)
    (r : Reason) (loc : option LocationData) (w : World) (categoryId : string) :
  0 <= expiryDays -> set_throws w = false ->
  fst (getCategoryConsent expiryDays categoryId (snd (saveConsent cats r loc w)))
  = bool_decide (cats !! categoryId = Some true).
Proof.
  intros Hd Hset. cbv [saveConsent bind ret date_now setItem]. rewrite Hset.
  cbv [getCategoryConsent bind].
  rewrite (getConsent_valid _ _
             {| timestamp := now w; categories := cats; version := STORAGE_VERSION;
                reason := r; locationData := loc |}); cbn; [reflexivity | reflexivity | lia
                                                           | reflexivity].
Qed.

Lemma saveConsent_getCategoryConsent_witness :
  fst (getCategoryConsent 365 "analytics"
         (snd (saveConsent (<["analytics" := false]> {[ "necessary" := true ]})
                 user_accept None example_world)))
  = bool_decide ((<["analytics" := false]> {[ "necessary" := true ]} : gmap string bool)
                   !! "analytics" = Some true).
Proof. apply saveConsent_getCategoryConsent; [lia | reflexivity]. Defined.

(** With nothing stored, or bytes that do not parse, [updateCategoryConsent]
    returns [null] and touches nothing: it never creates a record. *)
Theorem updateCategoryConsent_no_record (expiryDays : Z) (categoryId : string)
    (value : bool) (w : World) :
  (ls w = None \/ exists s, ls w = Some (SMalformed s)) ->
  updateCategoryConsent expiryDays categoryId value w = (None, w).
Proof.
  intros [Hls | [s Hls]]; run; rewrite Hls; reflexivity.
Qed.

Lemma updateCategoryConsent_no_record_witness :
  updateCategoryConsent 365 "analytics" true example_world = (None, example_world).
Proof. apply updateCategoryConsent_no_record. left. reflexivity. Defined.

(** On a valid stored record, with [expiryDays >= 0], a successful
    [updateCategoryConsent] assigns that one category (an id ["__proto__"]
    only when the record already has such a key), refreshes the timestamp
    to now, keeps reason, version and location data, and the next read
    returns the updated record. *)
Theorem updateCategoryConsent_roundtrip (expiryDays : Z) (categoryId : string)
    (value : bool) (w : World) (c : ConsentState) :
  ls w = Some (SRecord c) ->
  now w <= timestamp c + expiryDays * 24 * 60 * 60 * 1000 ->
  version c = STORAGE_VERSION -> set_throws w = false -> 0 <= expiryDays ->
  let '(r, w1) := updateCategoryConsent expiryDays categoryId value w in
  exists c', r = Some c' /\ timestamp c' = now w /\
    categories c' = js_assign (categories c) categoryId value /\
    reason c' = reason c /\ version c' = version c /\
    locationData c' = locationData c /\
    getConsent expiryDays w1 = (Some c', w1).
Proof.
  intros Hls Ht Hv Hset Hd.
  cbv [updateCategoryConsent bind]. rewrite (getConsent_valid _ _ c Hls Ht Hv).
  cbv [ret date_now setItem]. rewrite Hset.
  eexists. split; [reflexivity |].
  do 5 (split; [reflexivity |]).
  apply getConsent_valid; cbn; [reflexivity | lia | exact Hv].
Qed.

Lemma updateCategoryConsent_roundtrip_witness :
  let '(r, w1) := updateCategoryConsent 365 "analytics" true
                    (set_ls example_world (Some (SRecord example_record))) in
  exists c', r = Some c' /\ timestamp c' = now example_world /\
    categories c' = js_assign (categories example_record) "analytics" true /\
    reason c' = reason example_record /\ version c' = version example_record /\
    locationData c' = locationData example_record /\
    getConsent 365 w1 = (Some c', w1).
Proof.
  apply (updateCategoryConsent_roundtrip 365 "analytics" true
           (set_ls example_world (Some (SRecord example_record))) example_record);
    vm_compute; try reflexivity; discriminate.
Defined.

Lemma getConsent_mismatch (expiryDays : Z) (w : World) (c : ConsentState) :
  ls w = Some (SRecord c) ->
  now w <= timestamp c + expiryDays * 24 * 60 * 60 * 1000 ->
  version c <> STORAGE_VERSION ->
  getConsent expiryDays w
  = (None, if remove_throws w then add_log w (EvRemove false)
           else add_log (set_ls w None) (EvRemove true)).
Proof.
  intros Hls Ht Hv. run. rewrite Hls.
  replace (Z.ltb _ _) with false by (symmetry; apply Z.ltb_ge; lia).
  replace (String.eqb (version c) STORAGE_VERSION) with false
    by (symmetry; apply String.eqb_neq; exact Hv).
  cbn. destruct (remove_throws w); reflexivity.
Qed.

(** An unexpired record whose version is not ["1.0.0"] reads as absent,
    whether or not [removeItem] works; when it works, the record is also
    removed from storage. *)
Theorem getConsent_version_mismatch (expiryDays : Z) (w : World) (c : ConsentState) :
  ls w = Some (SRecord c) ->
  now w <= timestamp c + expiryDays * 24 * 60 * 60 * 1000 ->
  version c <> STORAGE_VERSION ->
  fst (getConsent expiryDays w) = None /\
  (remove_throws w = false ->
   snd (getConsent expiryDays w) = add_log (set_ls w None) (EvRemove true)).
Proof.
  intros Hls Ht Hv. rewrite (getConsent_mismatch expiryDays w c Hls Ht Hv).
  split; [reflexivity |]. intros Hrem. cbn. rewrite Hrem. reflexivity.
Qed.

Lemma getConsent_version_mismatch_witness :
  let c := {| timestamp := now example_world; categories := ∅; version := "0.9.0";
              reason := user_accept; locationData := None |} in
  fst (getConsent 365 (set_ls example_world (Some (SRecord c)))) = None /\
  (remove_throws (set_ls example_world (Some (SRecord c))) = false ->
   snd (getConsent 365 (set_ls example_world (Some (SRecord c))))
   = add_log (set_ls (set_ls example_world (Some (SRecord c))) None) (EvRemove true)).
Proof.
  intros c. apply (getConsent_version_mismatch 365 _ c); cbn; [reflexivity | lia | discriminate].
Defined.

(** When [removeItem] throws, an expired or version-mismatched record still
    reads as absent but stays in storage. *)
Theorem getConsent_invalid_lingers (expiryDays : Z) (w : World) (c : ConsentState) :
  ls w = Some (SRecord c) ->
  (timestamp c + expiryDays * 24 * 60 * 60 * 1000 < now w \/ version c <> STORAGE_VERSION) ->
  remove_throws w = true ->
  getConsent expiryDays w = (None, add_log w (EvRemove false)).
Proof.
  intros Hls Hinv Hrem. run. rewrite Hls.
  destruct (Z.ltb _ _) eqn:Ht; [cbn; rewrite Hrem; reflexivity |].
  destruct Hinv as [Hlt | Hv]; [apply Z.ltb_ge in Ht; lia |].
  replace (String.eqb (version c) STORAGE_VERSION) with false
    by (symmetry; apply String.eqb_neq; exact Hv).
  cbn. rewrite Hrem. reflexivity.
Qed.

Lemma getConsent_invalid_lingers_witness :
  let w := {| ls := Some (SRecord example_record); now := 1700000000000;
              set_throws := false; remove_throws := true; net := FetchThrows;
              log := [] |} in
  getConsent 0 w = (None, add_log w (EvRemove false)).
Proof.
  intros w. apply (getConsent_invalid_lingers 0 w example_record); [reflexivity | | reflexivity].
  left. vm_compute. reflexivity.
Defined.

(** With a working [removeItem], reading twice in a row gives the same
    result, and the second read changes nothing. *)
Theorem getConsent_idempotent (expiryDays : Z) (w : World) :
  remove_throws w = false ->
  let '(r, w1) := getConsent expiryDays w in
  getConsent expiryDays w1 = (r, w1).
Proof.
  intros Hrem.
  assert (Hnone : forall w', (ls w' = None \/ exists s, ls w' = Some (SMalformed s)) ->
                  getConsent expiryDays w' = (None, w'))
    by (intros w' [H | [s H]]; run; rewrite H; reflexivity).
  destruct (ls w) as [[c | s] |] eqn:Hls.
  - destruct (Z.ltb (timestamp c + expiryDays * 24 * 60 * 60 * 1000) (now w)) eqn:Ht.
    + apply Z.ltb_lt in Ht.
      rewrite (getConsent_expired expiryDays w c Hls Ht), Hrem.
      apply Hnone. left. reflexivity.
    + apply Z.ltb_ge in Ht.
      destruct (String.eqb (version c) STORAGE_VERSION) eqn:Hv.
      * apply String.eqb_eq in Hv.
        rewrite (getConsent_valid expiryDays w c Hls Ht Hv).
        exact (getConsent_valid expiryDays w c Hls Ht Hv).
      * apply String.eqb_neq in Hv.
        rewrite (getConsent_mismatch expiryDays w c Hls Ht Hv), Hrem.
        apply Hnone. left. reflexivity.
  - rewrite (Hnone w) by (right; exists s; exact Hls). apply Hnone. right. eauto.
  - rewrite (Hnone w) by (left; exact Hls). apply Hnone. left. exact Hls.
Qed.

Lemma getConsent_idempotent_witness :
  let '(r, w1) := getConsent 0 (set_ls example_world (Some (SRecord example_record))) in
  getConsent 0 w1 = (r, w1).
Proof. apply getConsent_idempotent. reflexivity. Defined.

(** ** Further properties of [GeolocationService] *)

(** A cached result younger than one hour is returned as it is: no [fetch],
    nothing else changes. *)
Theorem checkLocation_cache_hit (g : GeolocationService) (w : World)
    (r : GeolocationResponse) :
  cache g = Some r -> now w - cacheTimestamp g < CACHE_DURATION ->
  checkLocation g w = ((r, g), w).
Proof.
  intros Hc Ht. cbv [checkLocation bind date_now]. rewrite Hc.
  replace (Z.ltb _ _) with true by (symmetry; apply Z.ltb_lt; exact Ht).
  reflexivity.
Qed.

Lemma checkLocation_cache_hit_witness :
  let g := {| endpoint := DEFAULT_ENDPOINT; cache := Some failsafe_result;
              cacheTimestamp := now example_world - 10 |} in
  checkLocation g example_world = ((failsafe_result, g), example_world).
Proof. intros g. apply checkLocation_cache_hit; [reflexivity | unfold CACHE_DURATION; cbn; lia]. Defined.

(** A successful lookup is cached with the time of the answer: any call
    less than an hour after it returns the same result without a [fetch]. *)
Theorem checkLocation_success_cached (g : GeolocationService) (w : World)
    (r : GeolocationResponse) :
  cache_fresh g (now w) = false ->
  parse_response (endpoint g) (net w) = Some r ->
  let '((r1, g1), w1) := checkLocation g w in
  r1 = r /\ cache g1 = Some r /\ log w1 = log w ++ [EvFetch (endpoint g)] /\
  forall w', now w' - now w < CACHE_DURATION -> checkLocation g1 w' = ((r, g1), w').
Proof.
  intros Hfresh Hparse. rewrite checkLocation_miss by exact Hfresh.
  cbv [lookup bind fetch]. rewrite Hparse. cbv [date_now ret].
  split; [reflexivity |]. split; [reflexivity |]. split; [reflexivity |].
  intros w' Hw'. apply checkLocation_cache_hit; [reflexivity | exact Hw'].
Qed.

Lemma checkLocation_success_cached_witness :
  let '((r1, g1), w1) := checkLocation (new_GeolocationService None) us_world in
  r1 = {| inEU := JBool false; country := JStr "United States";
          region := JStr "California" |} /\
  cache g1 = Some {| inEU := JBool false; country := JStr "United States";
                     region := JStr "California" |} /\
  log w1 = log us_world ++ [EvFetch (endpoint (new_GeolocationService None))] /\
  forall w', now w' - now us_world < CACHE_DURATION ->
    checkLocation g1 w' = (({| inEU := JBool false; country := JStr "United States";
                              region := JStr "California" |}, g1), w').
Proof. apply checkLocation_success_cached; vm_compute; reflexivity. Defined.

(** After [clearCache], the next [checkLocation] always performs a [fetch]. *)
Theorem clearCache_forces_fetch (g : GeolocationService) (w : World) :
  log (snd (checkLocation (clearCache g) w)) = log w ++ [EvFetch (endpoint g)].
Proof.
  rewrite checkLocation_miss by reflexivity. exact (lookup_log (clearCache g) w).
Qed.

Lemma parse_response_falsy (ep : string) (o : FetchOutcome) (r : GeolocationResponse) :
  parse_response ep o = Some r -> falsy_is_false r.
Proof.
  unfold parse_response, falsy_is_false. intros H.
  destruct o as [| ok b]; [discriminate H |].
  destruct ok; cbn in H; [| discriminate H].
  destruct b as [| | data]; try discriminate H.
  injection H as <-.
  destruct (includes ep "ipapi.co"); cbn.
  - destruct (euCountries_includes _); cbn; [discriminate | reflexivity].
  - remember (js_or (d_inEU data) (d_in_eu data)) as x eqn:Hx. clear Hx.
    unfold js_or. destruct (truthy x) eqn:H; cbn.
    + intros Ht. rewrite H in Ht. discriminate.
    + reflexivity.
Qed.

Lemma checkLocation_falsy_inv (g : GeolocationService) (w : World) :
  cache_falsy_is_false g ->
  let '((r, g'), _) := checkLocation g w in
  falsy_is_false r /\ cache_falsy_is_false g'.
Proof.
  intros Hg.
  assert (Hlookup : let '((r, g'), _) := lookup g w in
                    falsy_is_false r /\ cache_falsy_is_false g').
  { cbv [lookup bind fetch]. destruct (parse_response _ _) as [r |] eqn:Hp.
    - cbv [date_now ret]. cbn. pose proof (parse_response_falsy _ _ _ Hp). auto.
    - cbv [ret]. split; [unfold falsy_is_false; discriminate | exact Hg]. }
  cbv [checkLocation bind date_now]. unfold cache_falsy_is_false in Hg.
  destruct (cache g) as [c |] eqn:Hc; [| exact Hlookup].
  destruct (Z.ltb _ _); [| exact Hlookup].
  cbv [ret]. split; [exact Hg |]. unfold cache_falsy_is_false. rewrite Hc. exact Hg.
Qed.

(** Every location result, fresh or cached, whose [inEU] is falsy has
    [inEU = false] exactly (the [|| false] and the list lookup never leave
    [undefined], [null], [0] or [""]), and the cache keeps that property. *)
Theorem checkLocation_falsy_is_false (g : GeolocationService) (w : World) :
  cache_falsy_is_false g ->
  let '((r, g'), _) := checkLocation g w in
  falsy_is_false r /\ cache_falsy_is_false g'.
Proof. apply checkLocation_falsy_inv. Qed.

Lemma checkLocation_falsy_is_false_witness :
  let '((r, g'), _) := checkLocation (new_GeolocationService None) us_world in
  falsy_is_false r /\ cache_falsy_is_false g'.
Proof. apply checkLocation_falsy_is_false. exact I. Defined.

(** A dialog built with [enableLocation: true] has a geolocation service with
    an empty cache; a non-empty [geolocationEndpoint] is used as given, and a
    missing or empty one falls back to the ipapi.co endpoint. *)
Theorem new_CookieDialog_geolocation (u : PartialConfig) :
  p_enableLocation u = Some true ->
  exists g, geolocation (new_CookieDialog u) = Some g /\ cache g = None /\
    (forall e, p_geolocationEndpoint u = Some e -> e <> "" -> endpoint g = e) /\
    ((p_geolocationEndpoint u = None \/ p_geolocationEndpoint u = Some "") ->
     endpoint g = DEFAULT_ENDPOINT /\ includes (endpoint g) "ipapi.co" = true).
Proof.
  intros Hen. cbv [new_CookieDialog mergeConfig]. cbn. rewrite Hen. cbn.
  eexists. split; [reflexivity |]. split; [reflexivity |]. split.
  - intros e He Hne. rewrite He. cbn.
    destruct (String.eqb e "") eqn:Heq; [apply String.eqb_eq in Heq; contradiction | reflexivity].
  - intros [He | He]; rewrite He; cbn; split; reflexivity.
Qed.

Lemma new_CookieDialog_geolocation_witness :
  exists g, geolocation (new_CookieDialog (example_options true None)) = Some g /\
    cache g = None /\
    (forall e, p_geolocationEndpoint (example_options true None) = Some e -> e <> "" ->
               endpoint g = e) /\
    ((p_geolocationEndpoint (example_options true None) = None \/
      p_geolocationEndpoint (example_options true None) = Some "") ->
     endpoint g = DEFAULT_ENDPOINT /\ includes (endpoint g) "ipapi.co" = true).
Proof. apply new_CookieDialog_geolocation. reflexivity. Defined.

(** ** The dialog's buttons *)

Lemma fold_js_notin {A} (f : A -> string) (g : A -> bool) (l : list A)
    (m : gmap string bool) (k : string) :
  k ∉ map f l -> fold_left (fun m a => js_assign m (f a) (g a)) l m !! k = m !! k.
Proof.
  revert m. induction l as [| a l IH]; intros m Hk; cbn; [reflexivity |].
  rewrite IH by set_solver. apply js_assign_lookup_ne. set_solver.
Qed.

Lemma fold_js_lookup {A} (f : A -> string) (g : A -> bool) (l : list A)
    (m : gmap string bool) (x : A) :
  NoDup (map f l) -> x ∈ l -> f x <> "__proto__" ->
  fold_left (fun m a => js_assign m (f a) (g a)) l m !! f x = Some (g x).
Proof.
  revert m. induction l as [| a l IH]; intros m Hnd Hx Hp; [set_solver |].
  cbn in Hnd |- *. apply NoDup_cons in Hnd as [Ha Hnd].
  apply elem_of_cons in Hx as [-> | Hx].
  - rewrite fold_js_notin by exact Ha. rewrite js_assign_ne by exact Hp.
    apply lookup_insert_eq.
  - apply IH; assumption.
Qed.

(** [acceptAll] with a working [setItem] and [expiryDays >= 0]: [onAccept]
    receives the record, a read returns it, every declared category other
    than ["__proto__"] is [true] in it and no other key appears. *)
Theorem acceptAll_records_all (d : CookieDialog) (w : World) :
  onAccept (config d) = true -> set_throws w = false -> 0 <= storage d ->
  let c := {| timestamp := now w; categories := all_true (dialog_categories d);
              version := STORAGE_VERSION; reason := user_accept; locationData := None |} in
  log (snd (acceptAll d w)) = log w ++ [EvSet c true; EvOnAccept c] /\
  getConsent (storage d) (snd (acceptAll d w)) = (Some c, snd (acceptAll d w)) /\
  (forall id, id ∈ map cat_id (dialog_categories d) -> id <> "__proto__" ->
              categories c !! id = Some true) /\
  (forall id, id ∉ map cat_id (dialog_categories d) \/ id = "__proto__" ->
              categories c !! id = None).
Proof.
  intros Hacc Hset Hd c.
  cbv [acceptAll saveConsent bind date_now setItem ret emit]. rewrite Hset, Hacc.
  split; [cbn; rewrite <- app_assoc; reflexivity |]. split.
  - apply getConsent_valid; cbn; [reflexivity | lia | reflexivity].
  - split; [intros id Hid Hp | intros id Hid]; cbn; rewrite all_true_lookup;
      destruct (decide _) as [[H1 H2] | H]; tauto.
Qed.

Lemma acceptAll_records_all_witness :
  let d := new_CookieDialog (example_options false None) in
  let c := {| timestamp := now example_world; categories := all_true (dialog_categories d);
              version := STORAGE_VERSION; reason := user_accept; locationData := None |} in
  log (snd (acceptAll d example_world)) = log example_world ++ [EvSet c true; EvOnAccept c] /\
  getConsent (storage d) (snd (acceptAll d example_world))
  = (Some c, snd (acceptAll d example_world)) /\
  (forall id, id ∈ map cat_id (dialog_categories d) -> id <> "__proto__" ->
              categories c !! id = Some true) /\
  (forall id, id ∉ map cat_id (dialog_categories d) \/ id = "__proto__" ->
              categories c !! id = None).
Proof. apply acceptAll_records_all; [reflexivity | reflexivity | vm_compute; discriminate]. Defined.

(** [rejectAll] with distinct category ids, a working [setItem] and
    [expiryDays >= 0]: the record read back has reason ["user_reject"], maps
    each declared category other than ["__proto__"] to its [required] flag
    (so required ones are [true], the others [false]), has no other key, and
    [onReject] is the last thing called. *)
Theorem rejectAll_required_only (d : CookieDialog) (w : World) :
  NoDup (map cat_id (dialog_categories d)) -> set_throws w = false -> 0 <= storage d ->
  exists c, fst (getConsent (storage d) (snd (rejectAll d w))) = Some c /\
    reason c = user_reject /\
    (forall cat, cat ∈ dialog_categories d -> cat_id cat <> "__proto__" ->
                 categories c !! cat_id cat = Some (cat_required cat)) /\
    (forall id, id ∉ map cat_id (dialog_categories d) \/ id = "__proto__" ->
                categories c !! id = None) /\
    (onReject (config d) = true -> last (log (snd (rejectAll d w))) = Some EvOnReject).
Proof.
  intros Hnd Hset Hd.
  set (c := {| timestamp := now w; categories := required_flags (dialog_categories d);
               version := STORAGE_VERSION; reason := user_reject; locationData := None |}).
  assert (Hw : snd (rejectAll d w)
               = if onReject (config d)
                 then add_log (add_log (set_ls w (Some (SRecord c))) (EvSet c true)) EvOnReject
                 else add_log (set_ls w (Some (SRecord c))) (EvSet c true)).
  { cbv [rejectAll saveConsent bind date_now setItem ret emit skip]. rewrite Hset.
    destruct (onReject (config d)); reflexivity. }
  assert (Hlook : forall cat, cat ∈ dialog_categories d -> cat_id cat <> "__proto__" ->
                  categories c !! cat_id cat = Some (cat_required cat))
    by (intros cat Hin Hp; apply (fold_js_lookup cat_id cat_required); assumption).
  exists c. split; [| split; [reflexivity | split; [exact Hlook | split]]].
  - rewrite Hw. destruct (onReject (config d));
      (rewrite getConsent_valid with (c := c); cbn; [reflexivity | reflexivity | lia | reflexivity]).
  - intros id [Hid | ->]; cbn; unfold required_flags.
    + rewrite (fold_js_notin cat_id cat_required) by exact Hid. apply lookup_empty.
    + apply fold_js_proto. apply lookup_empty.
  - intros Hon. rewrite Hw, Hon. cbn. rewrite last_app. reflexivity.
Qed.

Lemma rejectAll_required_only_witness :
  exists c, fst (getConsent 365 (snd (rejectAll (new_CookieDialog (example_options false None))
                                                 example_world))) = Some c /\
    reason c = user_reject /\
    (forall cat, cat ∈ getDefaultCategories -> cat_id cat <> "__proto__" ->
                 categories c !! cat_id cat = Some (cat_required cat)) /\
    (forall id, id ∉ map cat_id getDefaultCategories \/ id = "__proto__" ->
                categories c !! id = None) /\
    (onReject (config (new_CookieDialog (example_options false None))) = true ->
     last (log (snd (rejectAll (new_CookieDialog (example_options false None))
                       example_world))) = Some EvOnReject).
Proof.
  apply (rejectAll_required_only (new_CookieDialog (example_options false None)) example_world).
  - vm_compute. repeat constructor; set_solver.
  - reflexivity.
  - vm_compute. discriminate.
Defined.

(** A settings checkbox with an empty [data-category] is skipped:
    [saveSettings] never records the category [""]. *)
Theorem settings_consent_skips_empty (boxes : list Checkbox) :
  settings_consent boxes !! "" = None.
Proof.
  unfold settings_consent.
  assert (Hgen : forall m : gmap string bool, m !! "" = None ->
    fold_left (fun m cb => if String.eqb (cb_category cb) "" then m
                           else js_assign m (cb_category cb) (cb_checked cb)) boxes m !! "" = None).
  { induction boxes as [| cb boxes IH]; intros m Hm; cbn; [exact Hm |].
    apply IH. destruct (String.eqb (cb_category cb) "") eqn:He; [exact Hm |].
    apply String.eqb_neq in He. rewrite js_assign_lookup_ne by congruence. exact Hm. }
  apply Hgen. apply lookup_empty.
Qed.

Lemma only_ret {A} (P : Event -> Prop) (a : A) : only P (ret a).
Proof. intros w. exists []. cbn. rewrite app_nil_r. auto. Qed.

Lemma only_bind {A B} (P : Event -> Prop) (m : M A) (k : A -> M B) :
  only P m -> (forall a, only P (k a)) -> only P (bind m k).
Proof.
  intros Hm Hk w. cbv [bind]. destruct (Hm w) as (e1 & H1 & F1).
  destruct (m w) as [a w']. cbn in H1.
  destruct (Hk a w') as (e2 & H2 & F2). exists (e1 ++ e2).
  rewrite H2, H1, <- app_assoc. split; [reflexivity |].
  apply Forall_app. auto.
Qed.

Lemma only_bind_ret {A B} (P : Event -> Prop) (a : A) (k : A -> M B) :
  only P (k a) -> only P (bind (ret a) k).
Proof. intros H w. exact (H w). Qed.

Lemma only_getItem (P : Event -> Prop) : only P getItem.
Proof. intros w. exists []. cbn. rewrite app_nil_r. auto. Qed.

Lemma only_date_now (P : Event -> Prop) : only P date_now.
Proof. intros w. exists []. cbn. rewrite app_nil_r. auto. Qed.

Lemma only_emit (P : Event -> Prop) (e : Event) : P e -> only P (emit e).
Proof. intros He w. exists [e]. split; [reflexivity | auto]. Qed.

Lemma only_removeItem (P : Event -> Prop) :
  (forall b, P (EvRemove b)) -> only P removeItem.
Proof.
  intros HP w. cbv [removeItem]. destruct (remove_throws w); eexists;
    (split; [reflexivity | repeat constructor; apply HP]).
Qed.

Lemma only_fetch (P : Event -> Prop) (url : string) : P (EvFetch url) -> only P (fetch url).
Proof. intros HP w. eexists. split; [reflexivity | repeat constructor; exact HP]. Qed.

Lemma only_forEachM {A} (P : Event -> Prop) (f : A -> M unit) (l : list A) :
  (forall x, only P (f x)) -> only P (forEachM f l).
Proof.
  intros Hf. induction l as [| x l IH]; cbn [forEachM].
  - apply only_ret.
  - apply only_bind; intros; [apply Hf | exact IH].
Qed.

Ltac only_tac :=
  repeat first
    [ apply only_ret | apply only_getItem | apply only_date_now
    | apply only_removeItem; intros; exact I
    | apply only_emit; exact I
    | apply only_fetch; exact I
    | apply only_bind; intros
    | match goal with
      | |- only _ (match ?x with _ => _ end) => destruct x
      | |- only _ (if ?b then _ else _) => destruct b
      end ].

Lemma only_getConsent (P : Event -> Prop) (expiryDays : Z) :
  (forall b, P (EvRemove b)) -> only P (getConsent expiryDays).
Proof.
  intros HP. cbv [getConsent clearConsent skip].
  repeat first
    [ apply only_ret | apply only_getItem | apply only_date_now
    | apply only_removeItem; exact HP
    | apply only_bind; intros
    | match goal with
      | |- only _ (match ?x with _ => _ end) => destruct x
      | |- only _ (if ?b then _ else _) => destruct b
      end ].
Qed.

Lemma only_show (P : Event -> Prop) (d : CookieDialog) :
  (forall b, P (EvRemove b)) -> P EvShow -> only P (show d).
Proof.
  intros HR HS. cbv [show]. destruct (dialogElement d).
  - apply only_bind; intros; [apply only_emit; exact HS | apply only_ret].
  - cbv [render]. apply only_bind; intros.
    + apply only_forEachM. intros cat. cbv [getCategoryConsent skip].
      apply only_bind; intros; [| apply only_ret].
      apply only_bind; intros; [apply only_getConsent; exact HR |].
      destruct a; apply only_ret.
    + apply only_bind; intros; [apply only_emit; exact HS | apply only_ret].
Qed.

(** With [enableLocation] off, everything [init] does is one of: removing
    the stored record (an invalid one), calling [onAccept] with exactly the
    record that was in storage when [init] started, or showing the dialog.
    So it never contacts the geolocation endpoint, never writes the consent
    record, and never calls [onLocationNotRequired], [onReject] or
    [onChange]. *)
Theorem init_location_disabled_quiet (d : CookieDialog) (w : World) :
  enableLocation (config d) = false ->
  exists evs, log (snd (init d w)) = log w ++ evs /\ Forall (init_quiet_event (ls w)) evs.
Proof.
  intros Hen. set (P := init_quiet_event (ls w)).
  assert (HR : forall b, P (EvRemove b)) by (intros; exact I).
  assert (Hshow : forall d' w', exists evs, log (snd (show d' w')) = log w' ++ evs /\ Forall P evs)
    by (intros d' w'; apply only_show; [exact HR | exact I]).
  assert (Hloc : forall w', locationStep d w' = (FallThrough d, w'))
    by (intros w'; cbv [locationStep ret]; rewrite Hen; destruct (geolocation d); reflexivity).
  assert (Hext : forall w1 w2 e1 e2, log w1 = log w ++ e1 -> Forall P e1 ->
                 log w2 = log w1 ++ e2 -> Forall P e2 ->
                 exists evs, log w2 = log w ++ evs /\ Forall P evs).
  { intros w1 w2 e1 e2 L1 F1 L2 F2. exists (e1 ++ e2).
    rewrite L2, L1, <- app_assoc. split; [reflexivity | apply Forall_app; auto]. }
  assert (Hfall : forall w1 e1, log w1 = log w ++ e1 -> Forall P e1 ->
    exists evs, log (snd (let '(step, w') := locationStep d w1 in
                          match step with
                          | Returned d' => ret d'
                          | FallThrough d' => if autoShow (config d) then show d' else ret d'
                          end w')) = log w ++ evs /\ Forall P evs).
  { intros w1 e1 L1 F1. rewrite Hloc. destruct (autoShow (config d)).
    - destruct (Hshow d w1) as (e2 & L2 & F2). exact (Hext _ _ _ _ L1 F1 L2 F2).
    - exists e1. split; [exact L1 | exact F1]. }
  cbv [init existingConsent hasConsent bind].
  destruct (forceShow (config d)).
  - cbv [ret]. apply (Hfall w []); [symmetry; apply app_nil_r | constructor].
  - destruct (getConsent (storage d) w) as [r1 w1] eqn:G1.
    destruct (only_getConsent P (storage d) HR w) as (e1 & L1 & F1).
    rewrite G1 in L1. cbn in L1.
    pose proof (getConsent_shape (storage d) w) as S1. rewrite G1 in S1.
    destruct S1 as (_ & Ls1 & _).
    cbv [ret]. destruct (bool_decide (r1 <> None)); [| exact (Hfall w1 e1 L1 F1)].
    destruct (getConsent (storage d) w1) as [r2 w2] eqn:G2.
    destruct (only_getConsent P (storage d) HR w1) as (e2 & L2 & F2).
    rewrite G2 in L2. cbn in L2.
    pose proof (getConsent_shape (storage d) w1) as S2. rewrite G2 in S2.
    destruct S2 as (Res2 & _ & _).
    destruct (Hext _ _ _ _ L1 F1 L2 F2) as (e12 & L12 & F12).
    destruct r2 as [c |].
    + assert (Hc : P (EvOnAccept c)).
      { unfold P. cbn. specialize (Res2 c eq_refl).
        destruct Ls1 as [E | E]; rewrite E in Res2; [exact Res2 | discriminate]. }
      destruct (onAccept (config d)); cbv [emit skip ret]; cbn [snd].
      * exists (e12 ++ [EvOnAccept c]). cbn [log add_log]. rewrite L12, <- app_assoc.
        split; [reflexivity | apply Forall_app; split; [exact F12 | constructor; [exact Hc | constructor]]].
      * exists e12. split; [exact L12 | exact F12].
    + cbv [skip ret]. cbn [snd]. exists e12. split; [exact L12 | exact F12].
Qed.

Lemma init_location_disabled_quiet_witness :
  let d := new_CookieDialog (example_options false None) in
  let w := set_ls example_world (Some (SRecord example_record)) in
  enableLocation (config d) = false /\
  exists evs, log (snd (init d w)) = log w ++ evs /\ Forall (init_quiet_event (ls w)) evs.
Proof.
  intros d w. split; [reflexivity |]. apply init_location_disabled_quiet. reflexivity.
Defined.

(** With [forceShow] on, [init] never writes the consent record and never
    calls [onAccept] or [onLocationNotRequired], whatever is stored and
    wherever the visitor is. *)
Theorem init_forceShow_no_consent (d : CookieDialog) :
  forceShow (config d) = true -> only no_consent_event (init d).
Proof.
  intros Hfs. cbv [init existingConsent]. rewrite Hfs.
  apply only_bind_ret. apply only_bind; intros.
    + cbv [locationStep]. rewrite Hfs.
      destruct (enableLocation (config d)); [| apply only_ret].
      destruct (geolocation d) as [g |]; [| apply only_ret].
      apply only_bind; intros.
      * cbv [checkLocation lookup]. only_tac.
      * destruct a as [ld g']. cbn [negb]. rewrite andb_false_r. apply only_ret.
    + destruct a; [apply only_ret |].
      destruct (autoShow (config d)); [apply only_show; [intros; exact I | exact I] | apply only_ret].
Qed.

Lemma init_forceShow_no_consent_witness :
  let d := new_CookieDialog
    {| p_enableLocation := Some true; p_autoShow := None; p_expiryDays := None;
       p_forceShow := Some true; p_categories := None; p_geolocationEndpoint := None;
       p_onAccept := true; p_onReject := false; p_onChange := false;
       p_onLocationNotRequired := true |} in
  forceShow (config d) = true /\ only no_consent_event (init d).
Proof.
  intros d. split; [reflexivity |]. apply init_forceShow_no_consent. reflexivity.
Defined.

(** [isGDPRRequired] answers [location.inEU]: that answer is either truthy
    or exactly [false], never another falsy value; and when there is no
    fresh cache and the lookup fails, it answers [true] (GDPR assumed) and
    leaves the cache as it was. *)
Theorem isGDPRRequired_answer (g : GeolocationService) (w : World) :
  cache_falsy_is_false g ->
  let '((v, g'), _) := isGDPRRequired g w in
  (truthy v = true \/ v = JBool false) /\ cache_falsy_is_false g' /\
  (cache_fresh g (now w) = false -> parse_response (endpoint g) (net w) = None ->
   v = JBool true /\ g' = g).
Proof.
  intros Hg. pose proof (checkLocation_falsy_inv g w Hg) as Hinv.
  assert (Hfail : cache_fresh g (now w) = false -> parse_response (endpoint g) (net w) = None ->
                  fst (checkLocation g w) = (failsafe_result, g)).
  { intros Hfresh Hp. rewrite checkLocation_miss by exact Hfresh.
    cbv [lookup bind fetch]. cbn. rewrite Hp. reflexivity. }
  cbv [isGDPRRequired bind ret]. destruct (checkLocation g w) as [[r g'] w'] eqn:Hc.
  cbn in Hfail |- *. destruct Hinv as [Hr Hg'].
  split; [| split; [exact Hg' |]].
  - unfold falsy_is_false in Hr. destruct (truthy (inEU r)) eqn:Ht; auto.
  - intros Hfresh Hp. specialize (Hfail Hfresh Hp). inversion Hfail. auto.
Qed.

Lemma isGDPRRequired_answer_witness :
  let '((v, g'), _) := isGDPRRequired (new_GeolocationService None)
                         {| ls := None; now := 0; set_throws := false; remove_throws := false;
                            net := FetchThrows; log := [] |} in
  (truthy v = true \/ v = JBool false) /\ cache_falsy_is_false g' /\
  (cache_fresh (new_GeolocationService None) 0 = false ->
   parse_response (endpoint (new_GeolocationService None)) FetchThrows = None ->
   v = JBool true /\ g' = new_GeolocationService None).
Proof. apply (isGDPRRequired_answer (new_GeolocationService None)). exact I. Defined.
